(** * SQLQueryBuilder: a shallow embedding of SQLQueryBuilder.cpp

    The class [SQLQueryBuilder] accumulates the pieces of a SELECT
    statement through fluent member functions and renders them with
    [Build].  Strings are [string] (a [std::string] is a byte sequence),
    [std::vector<std::string>] is [list string], [int] is [Z] (no
    arithmetic is ever done on the two [int] fields, so no wrap-around
    arises), [std::unordered_map] is [gmap] and [std::unordered_set] is
    [gset].  The iteration order of the unordered map is left open: [Build]
    takes it as a parameter, and the properties hold for every order.  The
    map is kept by its content only; the order a library gives to a map
    depends on how it was filled, so nothing is concluded here about the
    relative order of two maps filled by different [SetValue] histories. *)

From stdpp Require Import gmap strings list fin_maps pretty.

Open Scope Z_scope.

(** ** std::string operations used by the class *)

(** [std::string::empty] and [std::vector::empty]. *)
Definition empty_string (s : string) : bool :=
  match s with "" => true | String _ _ => false end.

Definition empty_vector {A} (v : list A) : bool :=
  match v with [] => true | _ :: _ => false end.

(** The characters [0, n) of a string, and the characters from [n] on. *)
Fixpoint string_take (n : nat) (s : string) : string :=
  match n, s with
  | S n', String c s' => String c (string_take n' s')
  | _, _ => ""
  end.

Fixpoint string_drop (n : nat) (s : string) : string :=
  match n, s with
  | S n', String _ s' => string_drop n' s'
  | _, _ => s
  end.

(** [this.find(str)]: the lowest position at which [str] occurs in [this];
    [None] stands for [std::string::npos].  The empty string is found at
    position 0 of every string. *)
Fixpoint find (this str : string) : option nat :=
  if String.prefix str this then Some 0%nat
  else match this with
       | "" => None
       | String _ rest => S <$> find rest str
       end.

(** [this.replace(pos, len, str)]: the characters [pos, pos+len) (clipped
    to the end of the string) are replaced by [str].  The library throws
    [std::out_of_range] when [pos > size()]; [Build] only calls it with a
    position returned by [find] (see [find_bound]). *)
Definition replace (this : string) (pos len : nat) (str : string) : string :=
  string_take pos this +:+ str +:+ string_drop (pos + len) this.

(** ** Output streams

    [std::ostringstream] is the text written so far; [os << v] appends the
    textual form of [v].  The class streams strings and [int]s. *)
Definition ostringstream := string.

Class Streamable (T : Type) := stream_text : T → string.
#[global] Instance Streamable_string : Streamable string := λ s, s.
#[global] Instance Streamable_int : Streamable Z := λ n, pretty n.

Definition stream_put `{Streamable T} (os : ostringstream) (v : T) : ostringstream :=
  os +:+ stream_text v.
Notation "os << v" := (stream_put os v) (at level 50, left associativity).

(** ** The class *)

Inductive DatabaseType := Oracle | MariaDB.

#[global] Instance DatabaseType_eq_dec : EqDecision DatabaseType.
Proof. solve_decision. Defined.

Record SQLQueryBuilder := mkSQLQueryBuilder {
  dbType : DatabaseType;
  selectFields : list string;
  tableName : string;
  whereConditions : list string;
  joins : list string;
  orderBy : string;
  indexClause : string;
  is_distinct : bool;
  limit : Z;
  offset : Z;
  values : gmap string string;
  reservedKeywords : gset string;
}.

(** Assignment to one data member. *)
Definition set_selectFields (v : list string) (b : SQLQueryBuilder) :=
  mkSQLQueryBuilder (dbType b) v (tableName b) (whereConditions b) (joins b)
    (orderBy b) (indexClause b) (is_distinct b) (limit b) (offset b) (values b)
    (reservedKeywords b).
Definition set_tableName (v : string) (b : SQLQueryBuilder) :=
  mkSQLQueryBuilder (dbType b) (selectFields b) v (whereConditions b) (joins b)
    (orderBy b) (indexClause b) (is_distinct b) (limit b) (offset b) (values b)
    (reservedKeywords b).
Definition set_whereConditions (v : list string) (b : SQLQueryBuilder) :=
  mkSQLQueryBuilder (dbType b) (selectFields b) (tableName b) v (joins b)
    (orderBy b) (indexClause b) (is_distinct b) (limit b) (offset b) (values b)
    (reservedKeywords b).
Definition set_joins (v : list string) (b : SQLQueryBuilder) :=
  mkSQLQueryBuilder (dbType b) (selectFields b) (tableName b) (whereConditions b) v
    (orderBy b) (indexClause b) (is_distinct b) (limit b) (offset b) (values b)
    (reservedKeywords b).
Definition set_orderBy (v : string) (b : SQLQueryBuilder) :=
  mkSQLQueryBuilder (dbType b) (selectFields b) (tableName b) (whereConditions b)
    (joins b) v (indexClause b) (is_distinct b) (limit b) (offset b) (values b)
    (reservedKeywords b).
Definition set_indexClause (v : string) (b : SQLQueryBuilder) :=
  mkSQLQueryBuilder (dbType b) (selectFields b) (tableName b) (whereConditions b)
    (joins b) (orderBy b) v (is_distinct b) (limit b) (offset b) (values b)
    (reservedKeywords b).
Definition set_is_distinct (v : bool) (b : SQLQueryBuilder) :=
  mkSQLQueryBuilder (dbType b) (selectFields b) (tableName b) (whereConditions b)
    (joins b) (orderBy b) (indexClause b) v (limit b) (offset b) (values b)
    (reservedKeywords b).
Definition set_limit (v : Z) (b : SQLQueryBuilder) :=
  mkSQLQueryBuilder (dbType b) (selectFields b) (tableName b) (whereConditions b)
    (joins b) (orderBy b) (indexClause b) (is_distinct b) v (offset b) (values b)
    (reservedKeywords b).
Definition set_offset (v : Z) (b : SQLQueryBuilder) :=
  mkSQLQueryBuilder (dbType b) (selectFields b) (tableName b) (whereConditions b)
    (joins b) (orderBy b) (indexClause b) (is_distinct b) (limit b) v (values b)
    (reservedKeywords b).
Definition set_values (v : gmap string string) (b : SQLQueryBuilder) :=
  mkSQLQueryBuilder (dbType b) (selectFields b) (tableName b) (whereConditions b)
    (joins b) (orderBy b) (indexClause b) (is_distinct b) (limit b) (offset b) v
    (reservedKeywords b).
Definition set_reservedKeywords (v : gset string) (b : SQLQueryBuilder) :=
  mkSQLQueryBuilder (dbType b) (selectFields b) (tableName b) (whereConditions b)
    (joins b) (orderBy b) (indexClause b) (is_distinct b) (limit b) (offset b)
    (values b) v.

(** *** Private member functions *)

Definition InitializeReservedKeywords (this : SQLQueryBuilder) : SQLQueryBuilder :=
  set_reservedKeywords {[ "DATE"; "USER"; "ORDER"; "GROUP"; "INDEX" ]} this.

(** [Join]: the index loop over [elements], writing the delimiter before
    every element but the first. *)
Fixpoint Join_loop (i : nat) (elements : list string) (delimiter : string)
    (result : ostringstream) : ostringstream :=
  match elements with
  | [] => result
  | element :: rest =>
      let result := if (0 <? i)%nat then result << delimiter else result in
      let result := result << element in
      Join_loop (S i) rest delimiter result
  end.

Definition Join (elements : list string) (delimiter : string) : string :=
  Join_loop 0 elements delimiter "".

Definition ConvertToString `{Streamable T} (value : T) : string :=
  let oss : ostringstream := "" in
  oss << value.

(** The one-character string holding a double quote. *)
Definition dquote : string := String (Ascii.ascii_of_nat 34) "".

Definition HandleReservedKeyword (this : SQLQueryBuilder) (field : string) : string :=
  if bool_decide (field ∈ reservedKeywords this) then
    match dbType this with
    | MariaDB => "`" +:+ field +:+ "`"
    | Oracle => dquote +:+ field +:+ dquote
    end
  else field.

Definition FormatDateTime (this : SQLQueryBuilder) (dateTime : string) : string :=
  match dbType this with
  | MariaDB => "'" +:+ dateTime +:+ "'"
  | Oracle => "TO_TIMESTAMP('" +:+ dateTime +:+ "', 'YYYY-MM-DD HH24:MI:SS')"
  end.

(** *** Constructor

    The default member initialisers, then [InitializeReservedKeywords]. *)
Definition SQLQueryBuilder_init (dbType : DatabaseType) : SQLQueryBuilder :=
  {| dbType := dbType; selectFields := []; tableName := "";
     whereConditions := []; joins := []; orderBy := ""; indexClause := "";
     is_distinct := false; limit := -1; offset := -1; values := ∅;
     reservedKeywords := ∅ |}.

Definition SQLQueryBuilder_new (dbType : DatabaseType) : SQLQueryBuilder :=
  InitializeReservedKeywords (SQLQueryBuilder_init dbType).

(** *** Fluent member functions, as the change they make to [*this] *)

Definition Select (fields : list string) (this : SQLQueryBuilder) : SQLQueryBuilder :=
  foldl (λ this field,
           set_selectFields
             (selectFields this ++ [HandleReservedKeyword this field]) this)
        this fields.

Definition From (table : string) (this : SQLQueryBuilder) : SQLQueryBuilder :=
  set_tableName table this.

Definition Distinct (this : SQLQueryBuilder) : SQLQueryBuilder :=
  set_is_distinct true this.

Definition Where (conditions : list (string * string)) (isDateTime : bool)
    (this : SQLQueryBuilder) : SQLQueryBuilder :=
  foldl (λ this condition,
           let formattedValue := condition.2 in
           let formattedValue :=
             if isDateTime then FormatDateTime this condition.2
             else formattedValue in
           set_whereConditions
             (whereConditions this ++
                [HandleReservedKeyword this condition.1 +:+ " = " +:+ formattedValue])
             this)
        this conditions.

Definition WhereWithPlaceholder (conditions : list (string * string))
    (this : SQLQueryBuilder) : SQLQueryBuilder :=
  foldl (λ this condition,
           set_whereConditions
             (whereConditions this ++
                [HandleReservedKeyword this condition.1 +:+ " = " +:+ condition.2])
             this)
        this conditions.

Definition SetValue `{Streamable T} (placeholder : string) (value : T)
    (this : SQLQueryBuilder) : SQLQueryBuilder :=
  set_values (<[placeholder := ConvertToString value]> (values this)) this.

Definition InnerJoin (table onCondition : string) (this : SQLQueryBuilder)
    : SQLQueryBuilder :=
  set_joins (joins this ++ ["INNER JOIN " +:+ table +:+ " ON " +:+ onCondition]) this.

Definition OrderBy (field : string) (ascending : bool) (this : SQLQueryBuilder)
    : SQLQueryBuilder :=
  set_orderBy
    (HandleReservedKeyword this field +:+ (if ascending then " ASC" else " DESC"))
    this.

Definition Index (indexName : string) (this : SQLQueryBuilder) : SQLQueryBuilder :=
  set_indexClause indexName this.

Definition Limit (limit : Z) (this : SQLQueryBuilder) : SQLQueryBuilder :=
  set_limit limit this.

Definition Offset (offset : Z) (this : SQLQueryBuilder) : SQLQueryBuilder :=
  set_offset offset this.

(** *** Build

    [Build] is written as the sequence of its statements; each takes the
    stream [query] as it stands and returns it after the statement.  The
    range-for over [values] visits the entries in [iteration_order]. *)
Section Rendering.
Variable iteration_order : gmap string string → list (string * string).

(* lines 89-92 *)
Definition Build_hint (this : SQLQueryBuilder) (query : ostringstream)
    : ostringstream :=
  if bool_decide (dbType this = Oracle) && negb (empty_string (indexClause this))
  then query << (" /*+ INDEX(" +:+ tableName this +:+ ", " +:+ indexClause this
                   +:+ ") */ ")
  else query.

(* lines 94-105 *)
Definition Build_fields (this : SQLQueryBuilder) (query : ostringstream)
    : ostringstream :=
  if empty_vector (selectFields this) then query << "*"
  else
    let query := if is_distinct this then query << " DISTINCT  " else query in
    query << Join (selectFields this) ", ".

(* line 107 *)
Definition Build_from (this : SQLQueryBuilder) (query : ostringstream)
    : ostringstream :=
  query << " FROM " << tableName this.

(* lines 109-112 *)
Definition Build_force_index (this : SQLQueryBuilder) (query : ostringstream)
    : ostringstream :=
  if bool_decide (dbType this = MariaDB) && negb (empty_string (indexClause this))
  then query << " FORCE INDEX(" << indexClause this << ") "
  else query.

(* lines 114-116 *)
Definition Build_joins (this : SQLQueryBuilder) (query : ostringstream)
    : ostringstream :=
  foldl (λ query join, query << " " << join) query (joins this).

(* lines 121-124: the body of the loop over [values] *)
Definition substitute (whereClause : string) (pair : string * string) : string :=
  match find whereClause pair.1 with
  | Some pos => replace whereClause pos (String.length pair.1) pair.2
  | None => whereClause
  end.

(* lines 118-127 *)
Definition Build_where (this : SQLQueryBuilder) (query : ostringstream)
    : ostringstream :=
  if negb (empty_vector (whereConditions this)) then
    let whereClause := Join (whereConditions this) " AND " in
    let whereClause :=
      foldl substitute whereClause (iteration_order (values this)) in
    query << " WHERE " << whereClause
  else query.

(* lines 129-131 *)
Definition Build_orderBy (this : SQLQueryBuilder) (query : ostringstream)
    : ostringstream :=
  if negb (empty_string (orderBy this)) then query << " ORDER BY " << orderBy this
  else query.

(* lines 133-145 *)
Definition Build_pagination (this : SQLQueryBuilder) (query : ostringstream)
    : ostringstream :=
  match dbType this with
  | MariaDB =>
      if 0 <=? limit this then
        let query := query << " LIMIT " << limit this in
        if 0 <? offset this then query << " OFFSET " << offset this else query
      else query
  | Oracle =>
      if 0 <=? limit this then
        query << " FETCH FIRST " << limit this << " ROWS ONLY"
      else query
  end.

Definition Build (this : SQLQueryBuilder) : string :=
  let query : ostringstream := "" in
  let query := query << "SELECT " in
  let query := Build_hint this query in
  let query := Build_fields this query in
  let query := Build_from this query in
  let query := Build_force_index this query in
  let query := Build_joins this query in
  let query := Build_where this query in
  let query := Build_orderBy this query in
  let query := Build_pagination this query in
  query.

(** The text each statement of [Build] adds to the stream. *)
Definition fields_text (this : SQLQueryBuilder) : string := Build_fields this "".
Definition hint_text (this : SQLQueryBuilder) : string := Build_hint this "".
Definition force_index_text (this : SQLQueryBuilder) : string :=
  Build_force_index this "".
Definition joins_text (this : SQLQueryBuilder) : string := Build_joins this "".
Definition where_text (this : SQLQueryBuilder) : string := Build_where this "".
Definition orderBy_text (this : SQLQueryBuilder) : string := Build_orderBy this "".
Definition pagination_text (this : SQLQueryBuilder) : string :=
  Build_pagination this "".
End Rendering.

(** ** Objects and references

    A builder lives at an address of the store; a [SQLQueryBuilder&] is
    that address.  A fluent member function updates the object at [this]
    and returns [*this]; the [const] member function [Build] reads it. *)
Abbreviation addr := nat (only parsing).
Abbreviation store := (gmap nat SQLQueryBuilder) (only parsing).

Definition fluent (body : SQLQueryBuilder → SQLQueryBuilder) (this : addr)
    (σ : store) : option (addr * store) :=
  b ← σ !! this; Some (this, <[this := body b]> σ).

Definition const_member {A} (body : SQLQueryBuilder → A) (this : addr)
    (σ : store) : option (A * store) :=
  b ← σ !! this; Some (body b, σ).

(** The fluent calls of the public interface, with their arguments. *)
Inductive Call :=
  | CallSelect (fields : list string)
  | CallFrom (table : string)
  | CallDistinct
  | CallWhere (conditions : list (string * string)) (isDateTime : bool)
  | CallWhereWithPlaceholder (conditions : list (string * string))
  | CallSetValue (T : Type) (HT : Streamable T) (placeholder : string) (value : T)
  | CallInnerJoin (table onCondition : string)
  | CallOrderBy (field : string) (ascending : bool)
  | CallIndex (indexName : string)
  | CallLimit (limit : Z)
  | CallOffset (offset : Z).

Definition call_body (c : Call) : SQLQueryBuilder → SQLQueryBuilder :=
  match c with
  | CallSelect fields => Select fields
  | CallFrom table => From table
  | CallDistinct => Distinct
  | CallWhere conditions isDateTime => Where conditions isDateTime
  | CallWhereWithPlaceholder conditions => WhereWithPlaceholder conditions
  | CallSetValue T HT placeholder value => SetValue placeholder value
  | CallInnerJoin table onCondition => InnerJoin table onCondition
  | CallOrderBy field ascending => OrderBy field ascending
  | CallIndex indexName => Index indexName
  | CallLimit limit => Limit limit
  | CallOffset offset => Offset offset
  end.

Definition invoke (c : Call) : addr → store → option (addr * store) :=
  fluent (call_body c).

Definition run_calls (calls : list Call) (b : SQLQueryBuilder) : SQLQueryBuilder :=
  foldl (λ b c, call_body c b) b calls.

(** A builder as a program can hold it: constructed, then any calls. *)
Definition reachable (b : SQLQueryBuilder) : Prop :=
  ∃ dbType calls, b = run_calls calls (SQLQueryBuilder_new dbType).

(** The data members, and the ones a call is meant to write. *)
Inductive Member :=
  | m_dbType | m_selectFields | m_tableName | m_whereConditions | m_joins
  | m_orderBy | m_indexClause | m_is_distinct | m_limit | m_offset | m_values
  | m_reservedKeywords.

Definition same_member (m : Member) (b b' : SQLQueryBuilder) : Prop :=
  match m with
  | m_dbType => dbType b = dbType b'
  | m_selectFields => selectFields b = selectFields b'
  | m_tableName => tableName b = tableName b'
  | m_whereConditions => whereConditions b = whereConditions b'
  | m_joins => joins b = joins b'
  | m_orderBy => orderBy b = orderBy b'
  | m_indexClause => indexClause b = indexClause b'
  | m_is_distinct => is_distinct b = is_distinct b'
  | m_limit => limit b = limit b'
  | m_offset => offset b = offset b'
  | m_values => values b = values b'
  | m_reservedKeywords => reservedKeywords b = reservedKeywords b'
  end.

Definition accumulator (c : Call) : Member :=
  match c with
  | CallSelect _ => m_selectFields
  | CallFrom _ => m_tableName
  | CallDistinct => m_is_distinct
  | CallWhere _ _ => m_whereConditions
  | CallWhereWithPlaceholder _ => m_whereConditions
  | CallSetValue _ _ _ _ => m_values
  | CallInnerJoin _ _ => m_joins
  | CallOrderBy _ _ => m_orderBy
  | CallIndex _ => m_indexClause
  | CallLimit _ => m_limit
  | CallOffset _ => m_offset
  end.

(** The calls that assign the pagination members. *)
Definition sets_pagination (c : Call) : bool :=
  match c with
  | CallLimit _ | CallOffset _ => true
  | _ => false
  end.

(** ** The specification's vocabulary *)

(** The reserved words, and the escaping rule in the specification's
    words: quote the token iff it is one of them. *)
Definition reserved_words : list string :=
  ["DATE"; "USER"; "ORDER"; "GROUP"; "INDEX"].

Definition quote_of (d : DatabaseType) : string :=
  match d with MariaDB => "`" | Oracle => dquote end.

Definition escape_identifier (d : DatabaseType) (token : string) : string :=
  if bool_decide (token ∈ reserved_words)
  then quote_of d +:+ token +:+ quote_of d
  else token.

(** The date rule in the specification's words. *)
Definition format_date (d : DatabaseType) (literal : string) : string :=
  match d with
  | MariaDB => "'" +:+ literal +:+ "'"
  | Oracle => "TO_TIMESTAMP('" +:+ literal +:+ "', 'YYYY-MM-DD HH24:MI:SS')"
  end.

(** [token] occurs in [text] with [before] in front of it, and nowhere
    further to the left. *)
Definition first_occurrence (token text before after : string) : Prop :=
  text = before +:+ token +:+ after ∧
  ∀ before' after', text = before' +:+ token +:+ after' →
                    (String.length before ≤ String.length before')%nat.

Definition occurs (token text : string) : Prop :=
  ∃ before after, text = before +:+ token +:+ after.

(** One placeholder entry applied to the clause text: the first occurrence
    of the token is replaced by the value, or nothing changes. *)
Inductive first_replaced (token value : string) : string → string → Prop :=
  | first_replaced_hit text before after :
      first_occurrence token text before after →
      first_replaced token value text (before +:+ value +:+ after)
  | first_replaced_miss text :
      ¬ occurs token text → first_replaced token value text text.

(** The entries applied one after the other, each to the text the earlier
    ones left. *)
Inductive replaced_in_turn : list (string * string) → string → string → Prop :=
  | replaced_nil text : replaced_in_turn [] text text
  | replaced_cons token value entries text text' text'' :
      first_replaced token value text text' →
      replaced_in_turn entries text' text'' →
      replaced_in_turn ((token, value) :: entries) text text''.

(** Every element written with the delimiter in front of it. *)
Definition delimited (delimiter : string) (elements : list string) : string :=
  foldr (λ element text, delimiter +:+ element +:+ text) "" elements.

(** The text [Where] appends for one condition. *)
Definition where_fragment (b : SQLQueryBuilder) (isDateTime : bool)
    (condition : string * string) : string :=
  HandleReservedKeyword b condition.1 +:+ " = " +:+
  (if isDateTime then FormatDateTime b condition.2 else condition.2).

(** A builder whose only placeholder key, [?a], is the beginning of the
    token [?ab] that stands in its where-clause and has no value. *)
Definition colliding_placeholder : SQLQueryBuilder :=
  SetValue "?a" "X"
    (WhereWithPlaceholder [("c", "?ab")] (SQLQueryBuilder_new MariaDB)).

(** Decidable substring test, for concrete outputs. *)
Definition contains (text token : string) : bool :=
  if find text token is Some _ then true else false.

(** A builder with two placeholder keys, [a] and [ab], that overlap in its
    where-clause [c = ab]. *)
Definition overlapping_placeholders : SQLQueryBuilder :=
  SetValue "a" "X"
    (SetValue "ab" "Y" (Where [("c", "ab")] false (SQLQueryBuilder_new MariaDB))).

(** A builder whose placeholder map holds the empty key with value [X] and
    the key [X] with value [Y], over the where-clause [c = 1]; and the
    iteration order that visits a map in the reverse of [map_to_list]. *)
Definition rewritten_empty_key : SQLQueryBuilder :=
  SetValue "" "X"
    (SetValue "X" "Y" (Where [("c", "1")] false (SQLQueryBuilder_new MariaDB))).

Definition reversed_order (m : gmap string string) : list (string * string) :=
  reverse (map_to_list m).

(** * Properties *)

(** ** Strings *)

Lemma string_app_nil_l (s : string) : "" +:+ s = s.
Proof. reflexivity. Qed.

Lemma string_app_cons (c : Ascii.ascii) (s t : string) :
  String c s +:+ t = String c (s +:+ t).
Proof. reflexivity. Qed.

Lemma string_app_nil_r (s : string) : s +:+ "" = s.
Proof.
  induction s as [|c s IH]; [done|].
  by rewrite string_app_cons, IH.
Qed.

Lemma string_app_assoc (s t u : string) : (s +:+ t) +:+ u = s +:+ (t +:+ u).
Proof.
  induction s as [|c s IH]; [done|].
  by rewrite !string_app_cons, IH.
Qed.

Lemma string_length_app (s t : string) :
  String.length (s +:+ t) = (String.length s + String.length t)%nat.
Proof.
  induction s as [|c s IH]; [done|].
  rewrite string_app_cons. simpl. by rewrite IH.
Qed.

Lemma string_take_app (s t : string) : string_take (String.length s) (s +:+ t) = s.
Proof.
  induction s as [|c s IH]; [by destruct t|].
  rewrite string_app_cons. simpl. by rewrite IH.
Qed.

Lemma string_drop_app (s t : string) : string_drop (String.length s) (s +:+ t) = t.
Proof.
  induction s as [|c s IH]; [by destruct t|].
  rewrite string_app_cons. simpl. by rewrite IH.
Qed.

Lemma prefix_app (p s : string) :
  String.prefix p s = true ↔ ∃ r, s = p +:+ r.
Proof.
  revert s. induction p as [|c p IH]; intros s.
  - split; [intros _; by exists s | by destruct s].
  - destruct s as [|c' s]; simpl.
    + split; [done | by intros [r Hr]].
    + destruct (Ascii.ascii_dec c c') as [->|Hne].
      * rewrite IH. split; intros [r Hr]; exists r.
        -- by rewrite string_app_cons, <- Hr.
        -- rewrite string_app_cons in Hr. by injection Hr.
      * split; [done|]. intros [r Hr]. rewrite string_app_cons in Hr.
        injection Hr as Hc _. by destruct Hne.
Qed.

Lemma prefix_empty (s : string) : String.prefix "" s = true.
Proof. by destruct s. Qed.

(** [find] returns the position of the leftmost occurrence, and [npos]
    exactly when there is none. *)
Lemma find_spec (s k : string) :
  match find s k with
  | Some n => ∃ a b, first_occurrence k s a b ∧ String.length a = n
  | None => ¬ occurs k s
  end.
Proof.
  induction s as [|c s IH].
  - cbn [find]. destruct (String.prefix k "") eqn:Hp.
    + apply prefix_app in Hp as [r Hr]. exists "", r. repeat split; simpl; [done|].
      intros; lia.
    + unfold occurs. intros (a & b & Hab). destruct a as [|c a]; [|done].
      rewrite string_app_nil_l in Hab.
      assert (String.prefix k "" = true) by (apply prefix_app; eauto). congruence.
  - cbn [find]. destruct (String.prefix k (String c s)) eqn:Hp.
    + apply prefix_app in Hp as [r Hr]. exists "", r. repeat split; simpl; [done|].
      intros; lia.
    + assert (Hnil : ∀ b, String c s ≠ k +:+ b).
      { intros b Hb.
        assert (String.prefix k (String c s) = true) by (apply prefix_app; eauto).
        congruence. }
      destruct (find s k) as [n|]; simpl.
      * destruct IH as (a & b & [Hab Hmin] & Hlen).
        exists (String c a), b. repeat split.
        -- by rewrite string_app_cons, <- Hab.
        -- intros [|c' a'] b' Heq.
           ++ by apply Hnil in Heq.
           ++ rewrite string_app_cons in Heq. injection Heq as _ Heq.
              apply Hmin in Heq. simpl. lia.
        -- simpl. by rewrite Hlen.
      * unfold occurs in *. intros ([|c' a] & b & Hab).
        -- by apply Hnil in Hab.
        -- rewrite string_app_cons in Hab. injection Hab as _ Hab.
           apply IH. by exists a, b.
Qed.

Lemma find_None (s k : string) : find s k = None ↔ ¬ occurs k s.
Proof.
  pose proof (find_spec s k) as H. destruct (find s k) as [n|]; split; try done.
  intros Hno. destruct H as (a & b & [Hab _] & _). destruct Hno. by exists a, b.
Qed.

Lemma find_empty (s : string) : find s "" = Some 0%nat.
Proof. destruct s; simpl; by rewrite ?prefix_empty. Qed.

(** The position [find] returns leaves room for the token: [replace] is
    never called out of range. *)
Lemma find_bound (s k : string) (pos : nat) :
  find s k = Some pos → (pos + String.length k ≤ String.length s)%nat.
Proof.
  intros H. pose proof (find_spec s k) as Hs. rewrite H in Hs.
  destruct Hs as (a & b & [-> _] & <-). rewrite !string_length_app. lia.
Qed.

Lemma replace_occurrence (a k b v : string) :
  replace (a +:+ k +:+ b) (String.length a) (String.length k) v = a +:+ v +:+ b.
Proof.
  unfold replace. rewrite string_take_app. do 2 f_equal.
  rewrite <- string_length_app, <- string_app_assoc. apply string_drop_app.
Qed.

Lemma replace_at_start (s v : string) : replace s 0 0 v = v +:+ s.
Proof. unfold replace. simpl. by destruct s. Qed.

(** ** Streams and [Join] *)

Lemma ConvertToString_string (s : string) : ConvertToString s = s.
Proof. reflexivity. Qed.

Ltac stream_unfold :=
  unfold stream_put, stream_text, Streamable_string, Streamable_int in *.

Lemma Join_loop_later (i : nat) (elements : list string) (delimiter : string)
    (result : ostringstream) :
  Join_loop (S i) elements delimiter result = result +:+ delimited delimiter elements.
Proof.
  revert i result. induction elements as [|e rest IH]; intros i result; simpl.
  - by rewrite string_app_nil_r.
  - rewrite IH. stream_unfold. by rewrite !string_app_assoc.
Qed.

Lemma concat_delimited (delimiter e : string) (rest : list string) :
  String.concat delimiter (e :: rest) = e +:+ delimited delimiter rest.
Proof.
  revert e. induction rest as [|e' rest IH]; intros e.
  - simpl. by rewrite string_app_nil_r.
  - change (String.concat delimiter (e :: e' :: rest))
      with (e +:+ delimiter +:+ String.concat delimiter (e' :: rest)).
    by rewrite IH.
Qed.

(** [Join] is the usual concatenation with a separator, in list order. *)
Lemma Join_concat (elements : list string) (delimiter : string) :
  Join elements delimiter = String.concat delimiter elements.
Proof.
  destruct elements as [|e rest]; [done|].
  unfold Join. cbn [Join_loop Nat.ltb Nat.leb]. rewrite Join_loop_later.
  stream_unfold. by rewrite string_app_nil_l, concat_delimited.
Qed.

(** ** The layout of [Build] *)

Lemma Build_hint_text (b : SQLQueryBuilder) (query : ostringstream) :
  Build_hint b query = query +:+ hint_text b.
Proof.
  unfold hint_text, Build_hint.
  destruct (_ && _); stream_unfold; by rewrite ?string_app_nil_r.
Qed.

Lemma Build_fields_text (b : SQLQueryBuilder) (query : ostringstream) :
  Build_fields b query = query +:+ fields_text b.
Proof.
  unfold fields_text, Build_fields.
  destruct (empty_vector _); [done|].
  destruct (is_distinct b); stream_unfold; by rewrite ?string_app_assoc.
Qed.

Lemma Build_force_index_text (b : SQLQueryBuilder) (query : ostringstream) :
  Build_force_index b query = query +:+ force_index_text b.
Proof.
  unfold force_index_text, Build_force_index.
  destruct (_ && _); stream_unfold;
    by rewrite ?string_app_nil_r, ?string_app_assoc.
Qed.

Lemma Build_joins_text (b : SQLQueryBuilder) (query : ostringstream) :
  Build_joins b query = query +:+ joins_text b.
Proof.
  unfold joins_text, Build_joins. generalize (joins b) as js.
  intros js. revert query. induction js as [|j js IH] using rev_ind; intros query.
  - simpl. by rewrite string_app_nil_r.
  - rewrite !foldl_snoc, IH. stream_unfold. by rewrite !string_app_assoc.
Qed.

Lemma Build_where_text iter (b : SQLQueryBuilder) (query : ostringstream) :
  Build_where iter b query = query +:+ where_text iter b.
Proof.
  unfold where_text, Build_where.
  destruct (negb _); stream_unfold;
    by rewrite ?string_app_nil_r, ?string_app_assoc.
Qed.

Lemma Build_orderBy_text (b : SQLQueryBuilder) (query : ostringstream) :
  Build_orderBy b query = query +:+ orderBy_text b.
Proof.
  unfold orderBy_text, Build_orderBy.
  destruct (negb _); stream_unfold;
    by rewrite ?string_app_nil_r, ?string_app_assoc.
Qed.

Lemma Build_pagination_text (b : SQLQueryBuilder) (query : ostringstream) :
  Build_pagination b query = query +:+ pagination_text b.
Proof.
  unfold pagination_text, Build_pagination.
  destruct (dbType b), (0 <=? limit b), (0 <? offset b); stream_unfold;
    by rewrite ?string_app_nil_r, ?string_app_assoc.
Qed.

(** The output is the concatenation, in this order, of what the statements
    of [Build] write. *)
Lemma Build_layout iter (b : SQLQueryBuilder) :
  Build iter b =
    "SELECT " +:+ hint_text b +:+ fields_text b +:+ " FROM " +:+ tableName b +:+
    force_index_text b +:+ joins_text b +:+ where_text iter b +:+
    orderBy_text b +:+ pagination_text b.
Proof.
  unfold Build.
  rewrite Build_pagination_text, Build_orderBy_text, Build_where_text,
    Build_joins_text, Build_force_index_text.
  unfold Build_from.
  rewrite Build_fields_text, Build_hint_text. stream_unfold.
  by rewrite !string_app_assoc.
Qed.

(** ** The fluent member functions in closed form *)

(** The loop of [Select] appends the escaped fields in the order given. *)
Lemma Select_closed (fields : list string) (b : SQLQueryBuilder) :
  Select fields b =
    set_selectFields (selectFields b ++ (HandleReservedKeyword b <$> fields)) b.
Proof.
  unfold Select. revert b. induction fields as [|f fields IH]; intros b.
  - simpl. rewrite app_nil_r. by destruct b.
  - cbn [foldl]. rewrite IH. unfold set_selectFields; cbn. f_equal.
    by rewrite <- app_assoc.
Qed.

Lemma Where_closed (conditions : list (string * string)) (isDateTime : bool)
    (b : SQLQueryBuilder) :
  Where conditions isDateTime b =
    set_whereConditions
      (whereConditions b ++ (where_fragment b isDateTime <$> conditions)) b.
Proof.
  unfold Where. revert b. induction conditions as [|c conditions IH]; intros b.
  - simpl. rewrite app_nil_r. by destruct b.
  - cbn [foldl]. rewrite IH. unfold set_whereConditions; cbn. f_equal.
    by rewrite <- app_assoc.
Qed.

Lemma WhereWithPlaceholder_closed (conditions : list (string * string))
    (b : SQLQueryBuilder) :
  WhereWithPlaceholder conditions b =
    set_whereConditions
      (whereConditions b ++ (where_fragment b false <$> conditions)) b.
Proof.
  unfold WhereWithPlaceholder. revert b.
  induction conditions as [|c conditions IH]; intros b.
  - simpl. rewrite app_nil_r. by destruct b.
  - cbn [foldl]. rewrite IH. unfold set_whereConditions; cbn. f_equal.
    by rewrite <- app_assoc.
Qed.

(** Each call assigns to its accumulator and to nothing else. *)
Lemma call_body_frame (c : Call) (b : SQLQueryBuilder) (m : Member) :
  m ≠ accumulator c → same_member m b (call_body c b).
Proof.
  destruct c; cbn [call_body accumulator];
    rewrite ?Select_closed, ?Where_closed, ?WhereWithPlaceholder_closed;
    destruct m; intros Hm; try done.
Qed.

Lemma run_calls_snoc (calls : list Call) (c : Call) (b : SQLQueryBuilder) :
  run_calls (calls ++ [c]) b = call_body c (run_calls calls b).
Proof. unfold run_calls. by rewrite foldl_snoc. Qed.

(** The dialect and the reserved-keyword set are fixed at construction. *)
Lemma reachable_invariant (b : SQLQueryBuilder) :
  reachable b →
  reservedKeywords b = {[ "DATE"; "USER"; "ORDER"; "GROUP"; "INDEX" ]}.
Proof.
  intros (d & calls & ->). induction calls as [|c calls IH] using rev_ind; [done|].
  rewrite run_calls_snoc.
  rewrite <- (call_body_frame c _ m_reservedKeywords); [done|by destruct c].
Qed.

Lemma run_calls_dbType (calls : list Call) (b : SQLQueryBuilder) :
  dbType (run_calls calls b) = dbType b.
Proof.
  induction calls as [|c calls IH] using rev_ind; [done|].
  rewrite run_calls_snoc.
  rewrite <- (call_body_frame c _ m_dbType); [done|by destruct c].
Qed.

(** ** Identifier escaping *)

Lemma reserved_words_set (field : string) :
  field ∈ ({[ "DATE"; "USER"; "ORDER"; "GROUP"; "INDEX" ]} : gset string) ↔
  field ∈ reserved_words.
Proof.
  unfold reserved_words.
  rewrite !elem_of_union, !elem_of_singleton, !elem_of_cons, elem_of_nil.
  tauto.
Qed.

Lemma HandleReservedKeyword_escape (b : SQLQueryBuilder) (field : string) :
  reachable b → HandleReservedKeyword b field = escape_identifier (dbType b) field.
Proof.
  intros Hb. unfold HandleReservedKeyword, escape_identifier.
  rewrite (reachable_invariant b Hb).
  rewrite (bool_decide_ext _ _ (reserved_words_set field)).
  by destruct (bool_decide _), (dbType b).
Qed.

Lemma quote_of_length (d : DatabaseType) : String.length (quote_of d) = 1%nat.
Proof. by destruct d. Qed.

(** C1. For a builder obtained from the constructor by fluent calls, an
    identifier handed to [Select], [Where], [WhereWithPlaceholder] or
    [OrderBy] is wrapped in the dialect's quote character (back-tick for
    MariaDB, double quote for Oracle) if and only if it is exactly one of
    DATE, USER, ORDER, GROUP, INDEX; any other string is stored unchanged. *)
Theorem escaping_rule (b : SQLQueryBuilder) (field : string) :
  reachable b →
  (HandleReservedKeyword b field
     = quote_of (dbType b) +:+ field +:+ quote_of (dbType b)
   ↔ field ∈ reserved_words) ∧
  (field ∈ reserved_words ∨ HandleReservedKeyword b field = field) ∧
  (∀ fields,
     selectFields (Select fields b)
     = selectFields b ++ (escape_identifier (dbType b) <$> fields)) ∧
  (∀ conditions isDateTime,
     whereConditions (Where conditions isDateTime b)
     = whereConditions b ++
       ((λ c, escape_identifier (dbType b) c.1 +:+ " = " +:+
              (if isDateTime then FormatDateTime b c.2 else c.2)) <$> conditions)) ∧
  (∀ conditions,
     whereConditions (WhereWithPlaceholder conditions b)
     = whereConditions b ++
       ((λ c, escape_identifier (dbType b) c.1 +:+ " = " +:+ c.2) <$> conditions)) ∧
  (∀ ascending,
     orderBy (OrderBy field ascending b)
     = escape_identifier (dbType b) field +:+
       (if ascending then " ASC" else " DESC")).
Proof.
  intros Hb.
  assert (Hesc : ∀ f, HandleReservedKeyword b f = escape_identifier (dbType b) f)
    by (intros f; by apply HandleReservedKeyword_escape).
  split_and!.
  - rewrite Hesc. unfold escape_identifier. case_bool_decide as Hin; [done|].
    split; [|done]. intros Heq. apply (f_equal String.length) in Heq.
    rewrite !string_length_app, quote_of_length in Heq. lia.
  - rewrite Hesc. unfold escape_identifier. case_bool_decide; auto.
  - intros fields. rewrite Select_closed. cbn. f_equal.
    apply list_fmap_ext. intros _ f _. apply Hesc.
  - intros conditions isDateTime. rewrite Where_closed. cbn. f_equal.
    apply list_fmap_ext. intros _ c _. unfold where_fragment. by rewrite Hesc.
  - intros conditions. rewrite WhereWithPlaceholder_closed. cbn. f_equal.
    apply list_fmap_ext. intros _ c _. unfold where_fragment. by rewrite Hesc.
  - intros ascending. cbn. by rewrite Hesc.
Qed.

Lemma reachable_new (d : DatabaseType) : reachable (SQLQueryBuilder_new d).
Proof. by exists d, []. Defined.

Lemma escaping_rule_witness :
  reachable (SQLQueryBuilder_new Oracle) ∧
  selectFields (Select ["id"; "DATE"; "date"] (SQLQueryBuilder_new Oracle))
  = ["id"; dquote +:+ "DATE" +:+ dquote; "date"].
Proof.
  split; [apply reachable_new|].
  destruct (escaping_rule (SQLQueryBuilder_new Oracle) "DATE"
              (reachable_new Oracle)) as (_ & _ & Hsel & _).
  exact (Hsel ["id"; "DATE"; "date"]).
Defined.

(** ** Date literals *)

(** C4. [Where] with [isDateTime = true] stores, for every value [v]
    whatever its shape, ['v'] on MariaDB and
    [TO_TIMESTAMP('v', 'YYYY-MM-DD HH24:MI:SS')] on Oracle after the escaped
    column and [" = "]; with [isDateTime = false] it stores [v] itself. *)
Theorem date_formatting (b : SQLQueryBuilder) (conditions : list (string * string))
    (v : string) :
  FormatDateTime b v = format_date (dbType b) v ∧
  format_date MariaDB v = "'" +:+ v +:+ "'" ∧
  format_date Oracle v = "TO_TIMESTAMP('" +:+ v +:+ "', 'YYYY-MM-DD HH24:MI:SS')" ∧
  whereConditions (Where conditions true b)
  = whereConditions b ++
    ((λ c, HandleReservedKeyword b c.1 +:+ " = " +:+ format_date (dbType b) c.2)
       <$> conditions) ∧
  whereConditions (Where conditions false b)
  = whereConditions b ++
    ((λ c, HandleReservedKeyword b c.1 +:+ " = " +:+ c.2) <$> conditions).
Proof.
  split_and!; try done; by rewrite Where_closed.
Qed.

(** ** Frame *)

(** C10. A fluent call on the object at [this] returns the address [this]
    itself; in the store only that object changes, and in it only the
    accumulator of the call: every other data member, the dialect and the
    reserved-keyword set among them, keeps its value. *)
Theorem fluent_frame (c : Call) (this : addr) (σ : store) (b : SQLQueryBuilder) :
  σ !! this = Some b →
  ∃ b', invoke c this σ = Some (this, <[this := b']> σ) ∧
        b' = call_body c b ∧
        (∀ m, m ≠ accumulator c → same_member m b b') ∧
        dbType b' = dbType b ∧
        reservedKeywords b' = reservedKeywords b ∧
        (∀ other, other ≠ this → (<[this := b']> σ) !! other = σ !! other).
Proof.
  intros Hthis. exists (call_body c b). split_and!.
  - unfold invoke, fluent. by rewrite Hthis.
  - done.
  - intros m. apply call_body_frame.
  - symmetry. apply (call_body_frame c b m_dbType). by destruct c.
  - symmetry. apply (call_body_frame c b m_reservedKeywords). by destruct c.
  - intros other Hne. by rewrite lookup_insert_ne.
Qed.

Lemma fluent_frame_witness :
  ({[ 7%nat := SQLQueryBuilder_new MariaDB ]} : store) !! 7%nat
  = Some (SQLQueryBuilder_new MariaDB) ∧
  ∃ b', invoke (CallLimit 10) 7%nat {[ 7%nat := SQLQueryBuilder_new MariaDB ]}
        = Some (7%nat, <[7%nat := b']> {[ 7%nat := SQLQueryBuilder_new MariaDB ]}) ∧
        selectFields b' = [].
Proof.
  assert (Hthis : ({[ 7%nat := SQLQueryBuilder_new MariaDB ]} : store) !! 7%nat
                  = Some (SQLQueryBuilder_new MariaDB)) by reflexivity.
  split; [exact Hthis|].
  destruct (fluent_frame (CallLimit 10) 7%nat _ _ Hthis)
    as (b' & Hcall & _ & Hframe & _).
  exists b'. split; [exact Hcall|].
  symmetry. apply (Hframe m_selectFields). discriminate.
Defined.

(** ** The column list *)

Lemma fields_text_cases (b : SQLQueryBuilder) :
  (selectFields b = [] ∧ fields_text b = "*") ∨
  (selectFields b ≠ [] ∧ is_distinct b = true ∧
   fields_text b = " DISTINCT  " +:+ String.concat ", " (selectFields b)) ∨
  (selectFields b ≠ [] ∧ is_distinct b = false ∧
   fields_text b = String.concat ", " (selectFields b)).
Proof.
  unfold fields_text, Build_fields.
  destruct (selectFields b) as [|f fs] eqn:Hf; [by left|right].
  cbn [empty_vector]. rewrite Join_concat.
  destruct (is_distinct b); [left|right]; by stream_unfold.
Qed.

(** C6. In the output the column position, between the index hint and
    [" FROM "], holds ["*"] when no field was selected, whatever
    [is_distinct] is; when fields were selected and [is_distinct] is set it
    holds [" DISTINCT  "] (one space before, two after) directly followed by
    the fields joined by [", "]; the fields stand in the order in which
    [Select] received them. *)
Theorem column_list_rendering iter (b : SQLQueryBuilder) :
  Build iter b =
    "SELECT " +:+ hint_text b +:+ fields_text b +:+ " FROM " +:+ tableName b +:+
    force_index_text b +:+ joins_text b +:+ where_text iter b +:+
    orderBy_text b +:+ pagination_text b ∧
  ((selectFields b = [] ∧ fields_text b = "*") ∨
   (selectFields b ≠ [] ∧ is_distinct b = true ∧
    fields_text b = " DISTINCT  " +:+ String.concat ", " (selectFields b)) ∨
   (selectFields b ≠ [] ∧ is_distinct b = false ∧
    fields_text b = String.concat ", " (selectFields b))) ∧
  is_distinct (Distinct b) = true ∧
  (∀ fields,
     selectFields (Select fields b)
     = selectFields b ++ (HandleReservedKeyword b <$> fields)).
Proof.
  split_and!.
  - apply Build_layout.
  - apply fields_text_cases.
  - done.
  - intros fields. by rewrite Select_closed.
Qed.

(** ** Index hints *)

(** C5. With an index hint set, Oracle output carries the comment
    [" /*+ INDEX(<tableName>, <indexClause>) */ "] directly after
    ["SELECT "] and nothing between the table name and the joins; MariaDB
    output carries [" FORCE INDEX(<indexClause>) "] directly after
    [" FROM <tableName>"] and nothing between ["SELECT "] and the column
    list; with no hint set both places are empty. *)
Theorem index_hint_rendering iter (b : SQLQueryBuilder) :
  Build iter b =
    "SELECT " +:+ hint_text b +:+ fields_text b +:+ " FROM " +:+ tableName b +:+
    force_index_text b +:+ joins_text b +:+ where_text iter b +:+
    orderBy_text b +:+ pagination_text b ∧
  ((indexClause b = "" ∧ hint_text b = "" ∧ force_index_text b = "") ∨
   (indexClause b ≠ "" ∧ dbType b = Oracle ∧
    hint_text b = " /*+ INDEX(" +:+ tableName b +:+ ", " +:+ indexClause b +:+ ") */ " ∧
    force_index_text b = "") ∨
   (indexClause b ≠ "" ∧ dbType b = MariaDB ∧
    hint_text b = "" ∧
    force_index_text b = " FORCE INDEX(" +:+ indexClause b +:+ ") ")).
Proof.
  split; [apply Build_layout|].
  unfold hint_text, force_index_text, Build_hint, Build_force_index.
  destruct (indexClause b) as [|c s] eqn:Hi.
  - left. by rewrite !andb_false_r.
  - right. destruct (dbType b); [left|right]; by stream_unfold.
Qed.

(** ** Pagination *)

Lemma pagination_text_cases (b : SQLQueryBuilder) :
  match dbType b with
  | MariaDB =>
      (0 ≤ limit b ∧ 0 < offset b ∧
       pagination_text b
       = " LIMIT " +:+ pretty (limit b) +:+ " OFFSET " +:+ pretty (offset b)) ∨
      (0 ≤ limit b ∧ offset b ≤ 0 ∧
       pagination_text b = " LIMIT " +:+ pretty (limit b)) ∨
      (limit b < 0 ∧ pagination_text b = "")
  | Oracle =>
      (0 ≤ limit b ∧
       pagination_text b = " FETCH FIRST " +:+ pretty (limit b) +:+ " ROWS ONLY") ∨
      (limit b < 0 ∧ pagination_text b = "")
  end.
Proof.
  unfold pagination_text, Build_pagination.
  destruct (dbType b).
  - destruct (Z.leb_spec 0 (limit b)); [left|right]; by stream_unfold.
  - destruct (Z.leb_spec 0 (limit b)); [|by right; right].
    destruct (Z.ltb_spec 0 (offset b)); [left|right; left];
      stream_unfold; by rewrite ?string_app_assoc.
Qed.

(** C3. The last thing [Build] writes is the pagination text.  On MariaDB
    it is [" LIMIT <limit>"] exactly when [limit >= 0], followed by
    [" OFFSET <offset>"] exactly when moreover [offset > 0], and nothing
    when [limit < 0]; on Oracle it is [" FETCH FIRST <limit> ROWS ONLY"]
    exactly when [limit >= 0], and the output does not depend on [offset]
    at all. *)
Theorem pagination_rendering iter (b : SQLQueryBuilder) :
  Build iter b =
    "SELECT " +:+ hint_text b +:+ fields_text b +:+ " FROM " +:+ tableName b +:+
    force_index_text b +:+ joins_text b +:+ where_text iter b +:+
    orderBy_text b +:+ pagination_text b ∧
  match dbType b with
  | MariaDB =>
      (0 ≤ limit b ∧ 0 < offset b ∧
       pagination_text b
       = " LIMIT " +:+ pretty (limit b) +:+ " OFFSET " +:+ pretty (offset b)) ∨
      (0 ≤ limit b ∧ offset b ≤ 0 ∧
       pagination_text b = " LIMIT " +:+ pretty (limit b)) ∨
      (limit b < 0 ∧ pagination_text b = "")
  | Oracle =>
      ((0 ≤ limit b ∧
        pagination_text b = " FETCH FIRST " +:+ pretty (limit b) +:+ " ROWS ONLY") ∨
       (limit b < 0 ∧ pagination_text b = "")) ∧
      ∀ offset', Build iter (Offset offset' b) = Build iter b
  end.
Proof.
  split; [apply Build_layout|].
  pose proof (pagination_text_cases b) as Hcases.
  destruct (dbType b) eqn:Hd; [|done].
  split; [done|]. intros offset'.
  rewrite !Build_layout. do 8 f_equal.
  unfold pagination_text, Build_pagination. cbn. by rewrite Hd.
Qed.

(** ** The fresh builder *)

Lemma no_pagination_calls (calls : list Call) (b : SQLQueryBuilder) :
  Forall (λ c, sets_pagination c = false) calls →
  limit (run_calls calls b) = limit b ∧ offset (run_calls calls b) = offset b.
Proof.
  induction calls as [|c calls IH] using rev_ind; [done|].
  rewrite Forall_app, Forall_singleton. intros [Hcalls Hc].
  destruct (IH Hcalls) as [IHl IHo]. rewrite run_calls_snoc.
  rewrite <- IHl, <- IHo. split; symmetry.
  - apply (call_body_frame c _ m_limit). destruct c; by simplify_eq/=.
  - apply (call_body_frame c _ m_offset). destruct c; by simplify_eq/=.
Qed.

(** C8, as the code has it.  Until [Limit] or [Offset] is called, [limit]
    and [offset] both hold the initial value -1 (so [limit <= -1], and
    [offset] is not positive), and [Build] writes no pagination text in
    either dialect; the output of a new builder is ["SELECT * FROM "]. *)
Theorem fresh_pagination iter (d : DatabaseType) (calls : list Call) :
  Forall (λ c, sets_pagination c = false) calls →
  limit (run_calls calls (SQLQueryBuilder_new d)) = -1 ∧
  offset (run_calls calls (SQLQueryBuilder_new d)) = -1 ∧
  pagination_text (run_calls calls (SQLQueryBuilder_new d)) = "" ∧
  (∀ query, Build_pagination (run_calls calls (SQLQueryBuilder_new d)) query = query) ∧
  Build iter (SQLQueryBuilder_new d) = "SELECT * FROM ".
Proof.
  intros Hcalls.
  destruct (no_pagination_calls calls (SQLQueryBuilder_new d) Hcalls) as [Hl Ho].
  cbn in Hl, Ho.
  assert (Hp : pagination_text (run_calls calls (SQLQueryBuilder_new d)) = "").
  { unfold pagination_text, Build_pagination. rewrite Hl. by destruct (dbType _). }
  split_and!; try done.
  - intros query. by rewrite Build_pagination_text, Hp, string_app_nil_r.
  - by destruct d.
Qed.

Lemma fresh_pagination_witness :
  Forall (λ c, sets_pagination c = false)
         [CallSelect ["id"]; CallFrom "users"; CallIndex "idx"] ∧
  offset (run_calls [CallSelect ["id"]; CallFrom "users"; CallIndex "idx"]
            (SQLQueryBuilder_new MariaDB)) = -1.
Proof.
  assert (H : Forall (λ c, sets_pagination c = false)
                [CallSelect ["id"]; CallFrom "users"; CallIndex "idx"])
    by (repeat constructor).
  split; [exact H|].
  exact (proj1 (proj2 (fresh_pagination map_to_list MariaDB _ H))).
Defined.

(** The initial [offset] is -1, not 0. *)
Lemma fresh_offset_is_not_zero :
  offset (SQLQueryBuilder_new MariaDB) = -1 ∧ offset (SQLQueryBuilder_new Oracle) = -1 ∧
  offset (SQLQueryBuilder_new MariaDB) ≠ 0.
Proof. by split_and!. Qed.

(** ** Purity of [Build] *)

(** C7. [Build] on the object at [this] returns its text and leaves the
    store, hence every data member of the builder, as it was; a second call
    right after the first returns the same text.  This holds for every
    builder state, whatever its dialect. *)
Theorem Build_pure iter (this : addr) (σ : store) (b : SQLQueryBuilder) :
  σ !! this = Some b →
  const_member (Build iter) this σ = Some (Build iter b, σ) ∧
  ('(first, σ1) ← const_member (Build iter) this σ;
   '(second, σ2) ← const_member (Build iter) this σ1;
   Some (first, second, σ2))
  = Some (Build iter b, Build iter b, σ).
Proof.
  intros Hthis.
  assert (H : const_member (Build iter) this σ = Some (Build iter b, σ))
    by (unfold const_member; by rewrite Hthis).
  split; [done|]. rewrite H. cbn. by rewrite H.
Qed.

Lemma Build_pure_witness :
  ({[ 1%nat := SQLQueryBuilder_new Oracle ]} : store) !! 1%nat
  = Some (SQLQueryBuilder_new Oracle) ∧
  const_member (Build map_to_list) 1%nat {[ 1%nat := SQLQueryBuilder_new Oracle ]}
  = Some (Build map_to_list (SQLQueryBuilder_new Oracle),
          {[ 1%nat := SQLQueryBuilder_new Oracle ]}).
Proof.
  assert (Hthis : ({[ 1%nat := SQLQueryBuilder_new Oracle ]} : store) !! 1%nat
                  = Some (SQLQueryBuilder_new Oracle)) by reflexivity.
  split; [exact Hthis|].
  exact (proj1 (Build_pure map_to_list 1%nat _ _ Hthis)).
Defined.

(** ** Placeholder substitution *)

(** One pass of the loop body is one replacement of a first occurrence. *)
Lemma substitute_first_replaced (text token value : string) :
  first_replaced token value text (substitute text (token, value)).
Proof.
  unfold substitute. cbn [fst snd].
  pose proof (find_spec text token) as Hfind.
  destruct (find text token) as [pos|].
  - destruct Hfind as (before & after & Hocc & <-).
    destruct Hocc as [Htext Hmin]. rewrite Htext at 2.
    rewrite replace_occurrence. by constructor.
  - by constructor.
Qed.

Lemma substitute_miss (text token value : string) :
  ¬ occurs token text → substitute text (token, value) = text.
Proof.
  intros Hno. unfold substitute. cbn [fst].
  by rewrite (proj2 (find_None text token) Hno).
Qed.

(** The loop over the entries applies them in turn. *)
Lemma loop_replaced_in_turn (entries : list (string * string)) (text : string) :
  replaced_in_turn entries text (foldl substitute text entries).
Proof.
  revert text. induction entries as [|[token value] entries IH]; intros text.
  - constructor.
  - cbn [foldl]. econstructor; [apply substitute_first_replaced|apply IH].
Qed.

Lemma loop_no_occurrence (entries : list (string * string)) (text : string) :
  (∀ token value, (token, value) ∈ entries → ¬ occurs token text) →
  foldl substitute text entries = text.
Proof.
  induction entries as [|[token value] entries IH]; intros Hno; [done|].
  cbn [foldl]. rewrite substitute_miss.
  - apply IH. intros t v Hin. apply (Hno t v). by right.
  - apply (Hno token value). by left.
Qed.

(** The two relations are functional: the entries and the text determine
    the clause. *)
Lemma string_app_same_length (a a' x x' : string) :
  a +:+ x = a' +:+ x' → String.length a = String.length a' → a = a' ∧ x = x'.
Proof.
  revert a'. induction a as [|c a IH]; intros [|c' a'] Heq Hlen;
    simpl in Hlen; try done.
  rewrite !string_app_cons in Heq. injection Heq as -> Heq.
  destruct (IH a' Heq) as [-> ->]; [lia|done].
Qed.

Lemma first_occurrence_unique (token text before after before' after' : string) :
  first_occurrence token text before after →
  first_occurrence token text before' after' →
  before = before' ∧ after = after'.
Proof.
  intros [H1 Hmin1] [H2 Hmin2].
  pose proof (Hmin1 _ _ H2). pose proof (Hmin2 _ _ H1).
  rewrite H1 in H2. apply string_app_same_length in H2 as [-> H2]; [|lia].
  split; [done|]. by apply (inj (String.app token)) in H2.
Qed.

Lemma first_replaced_functional (token value text r r' : string) :
  first_replaced token value text r → first_replaced token value text r' → r = r'.
Proof.
  intros [? before after Hocc|? Hno] Hr'; inversion Hr' as [? before' after' Hocc'|? Hno'];
    subst.
  - by destruct (first_occurrence_unique _ _ _ _ _ _ Hocc Hocc') as [-> ->].
  - destruct Hno'. destruct Hocc as [-> _]. by exists before, after.
  - destruct Hno. destruct Hocc' as [-> _]. by exists before', after'.
  - done.
Qed.

Lemma replaced_in_turn_functional (entries : list (string * string))
    (text r r' : string) :
  replaced_in_turn entries text r → replaced_in_turn entries text r' → r = r'.
Proof.
  intros Hr. revert r'. induction Hr as [|token value entries text t1 r Hfirst _ IH];
    intros r' Hr'; inversion Hr' as [|? ? ? ? t1' ? Hfirst' Hrest']; subst; [done|].
  apply IH. by rewrite (first_replaced_functional _ _ _ _ _ Hfirst Hfirst').
Qed.

Section IterationOrder.
Context (iter : gmap string string → list (string * string)).
Context (iter_perm : ∀ m, iter m ≡ₚ map_to_list m).

Lemma iter_elem_of (m : gmap string string) (token value : string) :
  (token, value) ∈ iter m ↔ m !! token = Some value.
Proof using iter_perm. by rewrite iter_perm, elem_of_map_to_list. Qed.

Lemma iter_NoDup (m : gmap string string) : NoDup (iter m).*1.
Proof using iter_perm. rewrite iter_perm. apply NoDup_fst_map_to_list. Qed.

Lemma iter_singleton (token value : string) :
  iter {[ token := value ]} = [(token, value)].
Proof using iter_perm.
  apply Permutation_singleton_r. by rewrite iter_perm, map_to_list_singleton.
Qed.
End IterationOrder.

(** With a single placeholder entry the iteration order is forced. *)
Lemma Build_single_entry iter (b : SQLQueryBuilder) (token value : string) :
  (∀ m, iter m ≡ₚ map_to_list m) →
  map_to_list (values b) = [(token, value)] →
  Build iter b = Build (λ _, [(token, value)]) b.
Proof.
  intros Hperm Hvalues. unfold Build, Build_where.
  assert (iter (values b) = [(token, value)]) as ->; [|done].
  apply Permutation_singleton_r. by rewrite Hperm, Hvalues.
Qed.

Lemma where_text_nonempty iter (b : SQLQueryBuilder) :
  whereConditions b ≠ [] →
  where_text iter b
  = " WHERE " +:+
    foldl substitute (String.concat " AND " (whereConditions b)) (iter (values b)).
Proof.
  intros Hne. unfold where_text, Build_where.
  destruct (whereConditions b) as [|w ws] eqn:Hw; [done|].
  cbn [empty_vector negb]. rewrite Join_concat. by stream_unfold.
Qed.

(** C2, as the code has it.  With at least one where-clause, the clauses
    are joined with [" AND "] in insertion order; the entries of the
    placeholder map are then applied to that text one after the other, each
    key once, each replacing only the first occurrence of its token in the
    text as it then stands (or nothing when it does not occur); the result
    follows [" WHERE "].  When no key of the map occurs in the joined text,
    the joined text is written unchanged, so the tokens in it stay
    verbatim. *)
Theorem placeholder_substitution iter (b : SQLQueryBuilder) :
  (∀ m, iter m ≡ₚ map_to_list m) →
  whereConditions b ≠ [] →
  ∃ clause,
    Build iter b =
      "SELECT " +:+ hint_text b +:+ fields_text b +:+ " FROM " +:+ tableName b +:+
      force_index_text b +:+ joins_text b +:+ " WHERE " +:+ clause +:+
      orderBy_text b +:+ pagination_text b ∧
    replaced_in_turn (iter (values b))
      (String.concat " AND " (whereConditions b)) clause ∧
    (∀ clause',
       replaced_in_turn (iter (values b))
         (String.concat " AND " (whereConditions b)) clause' →
       clause' = clause) ∧
    NoDup (iter (values b)).*1 ∧
    (∀ token value,
       (token, value) ∈ iter (values b) ↔ values b !! token = Some value) ∧
    ((∀ token, is_Some (values b !! token) →
               ¬ occurs token (String.concat " AND " (whereConditions b))) →
     clause = String.concat " AND " (whereConditions b)) ∧
    (∀ conditions,
       whereConditions (WhereWithPlaceholder conditions b)
       = whereConditions b ++ (where_fragment b false <$> conditions)) ∧
    (∀ token value : string,
       values (SetValue token value b) = <[token := value]> (values b)).
Proof.
  intros Hperm Hne.
  exists (foldl substitute (String.concat " AND " (whereConditions b))
                (iter (values b))).
  split_and!.
  - rewrite Build_layout, where_text_nonempty by done.
    by rewrite !string_app_assoc.
  - apply loop_replaced_in_turn.
  - intros clause' Hclause'.
    apply (replaced_in_turn_functional _ _ _ _ Hclause'), loop_replaced_in_turn.
  - by apply iter_NoDup.
  - intros token value. by apply iter_elem_of.
  - intros Hno. apply loop_no_occurrence. intros token value Hin.
    apply Hno. exists value. by apply (iter_elem_of iter Hperm).
  - intros conditions. by rewrite WhereWithPlaceholder_closed.
  - done.
Qed.

Lemma placeholder_substitution_witness :
  (∀ m : gmap string string, map_to_list m ≡ₚ map_to_list m) ∧
  whereConditions
    (SetValue "?jd" "SYSDATE"
       (WhereWithPlaceholder [("join_date", "?jd")] (SQLQueryBuilder_new MariaDB)))
  ≠ [] ∧
  ∃ clause,
    replaced_in_turn
      (map_to_list
         (values
            (SetValue "?jd" "SYSDATE"
               (WhereWithPlaceholder [("join_date", "?jd")]
                  (SQLQueryBuilder_new MariaDB)))))
      (String.concat " AND "
         (whereConditions
            (SetValue "?jd" "SYSDATE"
               (WhereWithPlaceholder [("join_date", "?jd")]
                  (SQLQueryBuilder_new MariaDB)))))
      clause.
Proof.
  assert (Hperm : ∀ m : gmap string string, map_to_list m ≡ₚ map_to_list m)
    by (intros m; reflexivity).
  assert (Hne : whereConditions
                  (SetValue "?jd" "SYSDATE"
                     (WhereWithPlaceholder [("join_date", "?jd")]
                        (SQLQueryBuilder_new MariaDB))) ≠ [])
    by (vm_compute; discriminate).
  split; [exact Hperm|]. split; [exact Hne|].
  destruct (placeholder_substitution map_to_list _ Hperm Hne)
    as (clause & _ & Hturn & _).
  exists clause. exact Hturn.
Defined.

(** The token [?ab] was given no value, yet the key [?a] is found inside it:
    whatever the iteration order, the output is
    [SELECT * FROM  WHERE c = Xb], in which [?ab] no longer stands. *)
Lemma unset_placeholder_not_verbatim :
  values colliding_placeholder !! "?ab" = None ∧
  whereConditions colliding_placeholder = ["c = ?ab"] ∧
  (∀ iter, (∀ m, iter m ≡ₚ map_to_list m) →
           Build iter colliding_placeholder = "SELECT * FROM  WHERE c = Xb") ∧
  contains "SELECT * FROM  WHERE c = Xb" "?ab" = false.
Proof.
  split_and!; try by vm_compute.
  intros iter Hperm.
  etrans; [apply (Build_single_entry iter _ "?a" "X" Hperm)|];
    vm_compute; reflexivity.
Qed.

(** The example of the specification: a placeholder with a value is
    replaced by it. *)
Example placeholder_example iter :
  (∀ m, iter m ≡ₚ map_to_list m) →
  Build iter
    (SetValue "?jd" "SYSDATE"
       (WhereWithPlaceholder [("join_date", "?jd")]
          (From "users" (SQLQueryBuilder_new Oracle))))
  = "SELECT * FROM users WHERE join_date = SYSDATE".
Proof.
  intros Hperm.
  etrans; [apply (Build_single_entry iter _ "?jd" "SYSDATE" Hperm)|];
    vm_compute; reflexivity.
Qed.

(** ** The empty placeholder key *)

Lemma occurs_after (token value text : string) :
  occurs token text → occurs token (value +:+ text).
Proof.
  intros (before & after & ->). exists (value +:+ before), after.
  by rewrite !string_app_assoc.
Qed.

(** C9, as the code has it.  With at least one where-clause and an entry of
    the placeholder map whose key is the empty string, the loop of [Build]
    reaches that entry (after the entries [earlier], before the entries
    [later]): whatever the clause text is at that point, [find] returns
    position 0 and [replace] puts the stored value in front of it.  The
    entries visited afterwards are applied to the text that begins with the
    value, and [clause], the result, follows [" WHERE "].  When no other key
    of the map occurs in the value followed by the joined conditions, the
    clause is exactly the value followed by the joined conditions, whatever
    the iteration order. *)
Theorem empty_placeholder_key iter (b : SQLQueryBuilder) (value : string) :
  (∀ m, iter m ≡ₚ map_to_list m) →
  whereConditions b ≠ [] →
  values b !! "" = Some value →
  ∃ earlier later text clause,
    iter (values b) = earlier ++ ("", value) :: later ∧
    text = foldl substitute (Join (whereConditions b) " AND ") earlier ∧
    replaced_in_turn earlier (String.concat " AND " (whereConditions b)) text ∧
    find text "" = Some 0%nat ∧
    substitute text ("", value) = value +:+ text ∧
    first_replaced "" value text (value +:+ text) ∧
    clause = foldl substitute (value +:+ text) later ∧
    replaced_in_turn later (value +:+ text) clause ∧
    Build iter b =
      "SELECT " +:+ hint_text b +:+ fields_text b +:+ " FROM " +:+ tableName b +:+
      force_index_text b +:+ joins_text b +:+ " WHERE " +:+ clause +:+
      orderBy_text b +:+ pagination_text b ∧
    ((∀ key, key ≠ "" → is_Some (values b !! key) →
             ¬ occurs key (value +:+ String.concat " AND " (whereConditions b))) →
     clause = value +:+ String.concat " AND " (whereConditions b)).
Proof.
  intros Hperm Hne Hkey.
  pose proof (iter_NoDup iter Hperm (values b)) as Hnodup.
  assert (Hin : ∀ k v, (k, v) ∈ iter (values b) → values b !! k = Some v)
    by (intros k v; apply (iter_elem_of iter Hperm)).
  apply (iter_elem_of iter Hperm) in Hkey.
  apply list_elem_of_split in Hkey as (earlier & later & Hsplit).
  rewrite Hsplit in Hnodup, Hin.
  rewrite fmap_app, fmap_cons in Hnodup. cbn [fst] in Hnodup.
  apply NoDup_app in Hnodup as (_ & Hearlier & [Hlater _]%NoDup_cons).
  assert (Hstep : ∀ text, substitute text ("", value) = value +:+ text).
  { intros text. unfold substitute. cbn [fst snd].
    rewrite find_empty. apply replace_at_start. }
  exists earlier, later,
    (foldl substitute (Join (whereConditions b) " AND ") earlier),
    (foldl substitute
       (value +:+ foldl substitute (Join (whereConditions b) " AND ") earlier)
       later).
  split_and!; try done.
  - rewrite Join_concat. apply loop_replaced_in_turn.
  - apply find_empty.
  - pose proof (substitute_first_replaced
                  (foldl substitute (Join (whereConditions b) " AND ") earlier)
                  "" value) as Hfirst.
    by rewrite Hstep in Hfirst.
  - apply loop_replaced_in_turn.
  - rewrite Build_layout, where_text_nonempty by done.
    rewrite Hsplit, foldl_app. cbn [foldl].
    by rewrite Hstep, Join_concat, !string_app_assoc.
  - intros Hno. rewrite Join_concat.
    rewrite (loop_no_occurrence earlier).
    + apply loop_no_occurrence. intros k v Hk.
      apply Hno.
      * intros ->. apply Hlater. apply list_elem_of_fmap. by exists ("", v).
      * exists v. apply Hin. rewrite elem_of_app, elem_of_cons. auto.
    + intros k v Hk Hocc. apply (Hno k).
      * intros ->. apply (Hearlier "").
        -- apply list_elem_of_fmap. by exists ("", v).
        -- by left.
      * exists v. apply Hin. rewrite elem_of_app. auto.
      * by apply occurs_after.
Qed.

Lemma empty_placeholder_key_witness :
  (∀ m : gmap string string, map_to_list m ≡ₚ map_to_list m) ∧
  whereConditions
    (SetValue "" "1 = 1 OR "
       (Where [("id", "7")] false (SQLQueryBuilder_new MariaDB))) ≠ [] ∧
  values
    (SetValue "" "1 = 1 OR "
       (Where [("id", "7")] false (SQLQueryBuilder_new MariaDB))) !! ""
  = Some "1 = 1 OR " ∧
  ∃ text,
    substitute text ("", "1 = 1 OR ") = "1 = 1 OR " +:+ text.
Proof.
  assert (Hperm : ∀ m : gmap string string, map_to_list m ≡ₚ map_to_list m)
    by (intros m; reflexivity).
  assert (Hne : whereConditions
                  (SetValue "" "1 = 1 OR "
                     (Where [("id", "7")] false (SQLQueryBuilder_new MariaDB)))
                ≠ [])
    by (vm_compute; discriminate).
  assert (Hkey : values
                   (SetValue "" "1 = 1 OR "
                      (Where [("id", "7")] false (SQLQueryBuilder_new MariaDB)))
                   !! "" = Some "1 = 1 OR ")
    by (vm_compute; reflexivity).
  split; [exact Hperm|]. split; [exact Hne|]. split; [exact Hkey|].
  destruct (empty_placeholder_key map_to_list _ _ Hperm Hne Hkey)
    as (earlier & later & text & clause & _ & _ & _ & _ & Hstep & _).
  exists text. exact Hstep.
Defined.

(** The value stored under the empty key is put in front of the clause, but
    the key [X], visited after it, is then found in that very value: with
    the empty key visited first the WHERE clause is [Yc = 1], which does not
    begin with the stored value [X]. *)
Lemma empty_key_value_rewritten :
  whereConditions rewritten_empty_key = ["c = 1"] ∧
  values rewritten_empty_key !! "" = Some "X" ∧
  (∀ m, reversed_order m ≡ₚ map_to_list m) ∧
  reversed_order (values rewritten_empty_key) = [("", "X"); ("X", "Y")] ∧
  where_text reversed_order rewritten_empty_key = " WHERE Yc = 1" ∧
  Build reversed_order rewritten_empty_key = "SELECT * FROM  WHERE Yc = 1" ∧
  String.prefix "X" "Yc = 1" = false.
Proof.
  split_and!; try (vm_compute; reflexivity).
  intros m. apply reverse_Permutation.
Qed.

(** The empty key alone: its value opens the WHERE clause. *)
Example empty_key_example iter :
  (∀ m, iter m ≡ₚ map_to_list m) →
  Build iter
    (SetValue "" "1 = 1 OR "
       (Where [("id", "7")] false (From "t" (SQLQueryBuilder_new MariaDB))))
  = "SELECT * FROM t WHERE 1 = 1 OR id = 7".
Proof.
  intros Hperm.
  etrans; [apply (Build_single_entry iter _ "" "1 = 1 OR " Hperm)|];
    vm_compute; reflexivity.
Qed.

(** ** The examples of the specification and of [main] *)

Example select_from_example iter :
  Build iter (From "users" (Select ["id"; "name"] (SQLQueryBuilder_new MariaDB)))
  = "SELECT id, name FROM users".
Proof. by vm_compute. Qed.

Example distinct_example iter :
  Build iter
    (Distinct (From "users" (Select ["id"; "name"] (SQLQueryBuilder_new MariaDB))))
  = "SELECT  DISTINCT  id, name FROM users".
Proof. by vm_compute. Qed.

Example limit_offset_example iter :
  Build iter (Offset 5 (Limit 10 (From "t" (SQLQueryBuilder_new MariaDB))))
  = "SELECT * FROM t LIMIT 10 OFFSET 5" ∧
  Build iter (Offset 5 (Limit 10 (From "t" (SQLQueryBuilder_new Oracle))))
  = "SELECT * FROM t FETCH FIRST 10 ROWS ONLY".
Proof. split; by vm_compute. Qed.

Example date_example :
  whereConditions
    (Where [("event_time", "2024-01-01 10:00:00")] true (SQLQueryBuilder_new Oracle))
  = ["event_time = TO_TIMESTAMP('2024-01-01 10:00:00', 'YYYY-MM-DD HH24:MI:SS')"] ∧
  whereConditions
    (Where [("event_time", "2024-01-01 10:00:00")] true (SQLQueryBuilder_new MariaDB))
  = ["event_time = '2024-01-01 10:00:00'"].
Proof. split; by vm_compute. Qed.

Example index_example iter :
  Build iter (Index "ix" (From "t" (SQLQueryBuilder_new Oracle)))
  = "SELECT  /*+ INDEX(t, ix) */ * FROM t" ∧
  Build iter (Index "ix" (From "t" (SQLQueryBuilder_new MariaDB)))
  = "SELECT * FROM t FORCE INDEX(ix) ".
Proof. split; by vm_compute. Qed.

(** The query assembled in [main]. *)
Example main_example iter :
  (∀ m, iter m ≡ₚ map_to_list m) →
  Build iter
    (Offset 5
       (Limit 10
          (OrderBy "name" true
             (InnerJoin "orders" "users.id = orders.user_id"
                (SetValue "?joindate" "SYSDATE"
                   (WhereWithPlaceholder [("join_date", "?joindate")]
                      (Index "idx_users_name"
                         (From "users"
                            (Distinct
                               (Select ["id"; "name"; "DATE"]
                                  (SQLQueryBuilder_new MariaDB)))))))))))
  = "SELECT  DISTINCT  id, name, `DATE` FROM users FORCE INDEX(idx_users_name)  INNER JOIN orders ON users.id = orders.user_id WHERE join_date = SYSDATE ORDER BY name ASC LIMIT 10 OFFSET 5".
Proof.
  intros Hperm.
  etrans; [apply (Build_single_entry iter _ "?joindate" "SYSDATE" Hperm)|];
    vm_compute; reflexivity.
Qed.

(** * Further properties of the class *)

(** ** [Join] *)

Lemma delimited_app (delimiter : string) (xs ys : list string) :
  delimited delimiter (xs ++ ys)
  = delimited delimiter xs +:+ delimited delimiter ys.
Proof.
  induction xs as [|x xs IH]; [done|].
  cbn [app delimited foldr]. fold (delimited delimiter (xs ++ ys)).
  fold (delimited delimiter xs). by rewrite IH, !string_app_assoc.
Qed.

(** X1. [Join] of no element is the empty string and [Join] of one element
    is that element, with no delimiter; joining two non-empty lists one
    after the other is joining each and putting one delimiter between the
    two texts.  So the delimiter stands between elements only, never first
    or last. *)
Theorem Join_composition (delimiter x y : string) (xs ys : list string) :
  Join [] delimiter = "" ∧
  Join [x] delimiter = x ∧
  Join ((x :: xs) ++ (y :: ys)) delimiter
  = Join (x :: xs) delimiter +:+ delimiter +:+ Join (y :: ys) delimiter.
Proof.
  split_and!; [done|done|].
  - rewrite !Join_concat. change ((x :: xs) ++ y :: ys) with (x :: (xs ++ y :: ys)).
    rewrite !concat_delimited, delimited_app.
    cbn [delimited foldr]. fold (delimited delimiter ys).
    by rewrite !string_app_assoc.
Qed.

(** ** Joins *)

(** X2. [InnerJoin] stores ["INNER JOIN <table> ON <onCondition>"] with both
    arguments verbatim (no escaping, whatever they are), after the joins
    already there; [Build] writes every join with one space in front, in
    call order, between the FORCE INDEX position and the WHERE clause. *)
Theorem InnerJoin_rendering iter (b : SQLQueryBuilder) (table onCondition : string) :
  joins (InnerJoin table onCondition b)
  = joins b ++ ["INNER JOIN " +:+ table +:+ " ON " +:+ onCondition] ∧
  joins_text (InnerJoin table onCondition b)
  = joins_text b +:+ " INNER JOIN " +:+ table +:+ " ON " +:+ onCondition ∧
  Build iter (InnerJoin table onCondition b) =
    "SELECT " +:+ hint_text b +:+ fields_text b +:+ " FROM " +:+ tableName b +:+
    force_index_text b +:+ joins_text b +:+
    " INNER JOIN " +:+ table +:+ " ON " +:+ onCondition +:+
    where_text iter b +:+ orderBy_text b +:+ pagination_text b.
Proof.
  assert (Hjoins :
    joins_text (InnerJoin table onCondition b)
    = joins_text b +:+ " INNER JOIN " +:+ table +:+ " ON " +:+ onCondition).
  { unfold joins_text, Build_joins. cbn [InnerJoin set_joins joins].
    rewrite foldl_snoc. stream_unfold. by rewrite !string_app_assoc. }
  split_and!; [done|done|].
  rewrite Build_layout, Hjoins. by rewrite !string_app_assoc.
Qed.

(** ** ORDER BY *)

(** X3. [OrderBy] replaces the earlier ordering (the last call wins), and
    what it stores is never empty, so after a call [Build] always writes
    [" ORDER BY <escaped field> ASC"] or [... DESC], also for an empty
    field name; with no ordering stored nothing is written. *)
Theorem OrderBy_last_call_wins (b : SQLQueryBuilder) (field field' : string)
    (ascending ascending' : bool) :
  OrderBy field' ascending' (OrderBy field ascending b) = OrderBy field' ascending' b ∧
  orderBy (OrderBy field ascending b) ≠ "" ∧
  orderBy_text (OrderBy field ascending b)
  = " ORDER BY " +:+ HandleReservedKeyword b field +:+
    (if ascending then " ASC" else " DESC") ∧
  ((orderBy b = "" ∧ orderBy_text b = "") ∨
   (orderBy b ≠ "" ∧ orderBy_text b = " ORDER BY " +:+ orderBy b)).
Proof.
  assert (Hne : orderBy (OrderBy field ascending b) ≠ "").
  { cbn [OrderBy set_orderBy orderBy]. intros Heq.
    apply (f_equal String.length) in Heq. rewrite string_length_app in Heq.
    destruct ascending; simpl in Heq; lia. }
  split_and!; [done|done| |].
  - unfold orderBy_text, Build_orderBy.
    destruct (orderBy (OrderBy field ascending b)) eqn:Ho; [by destruct Hne|].
    cbn [empty_string negb]. rewrite <- Ho. by stream_unfold.
  - unfold orderBy_text, Build_orderBy.
    destruct (orderBy b) eqn:Ho; [by left|right]. by stream_unfold.
Qed.

(** X4. No fluent call undoes [Distinct] or [OrderBy]: whatever calls
    follow, [is_distinct] stays set and [orderBy] stays non-empty. *)
Theorem Distinct_OrderBy_persist (calls : list Call) (b : SQLQueryBuilder)
    (field : string) (ascending : bool) :
  is_distinct (run_calls calls (Distinct b)) = true ∧
  orderBy (run_calls calls (OrderBy field ascending b)) ≠ "".
Proof.
  assert (Hstored : ∀ b' f (a : bool),
            HandleReservedKeyword b' f +:+ (if a then " ASC" else " DESC") ≠ "").
  { intros b' f a Heq. apply (f_equal String.length) in Heq.
    rewrite string_length_app in Heq. destruct a; simpl in Heq; lia. }
  split.
  - induction calls as [|c calls IH] using rev_ind; [done|].
    rewrite run_calls_snoc.
    destruct c; cbn [call_body];
      rewrite ?Select_closed, ?Where_closed, ?WhereWithPlaceholder_closed;
      first [exact IH | done].
  - induction calls as [|c calls IH] using rev_ind; [apply Hstored|].
    rewrite run_calls_snoc.
    destruct c; cbn [call_body];
      rewrite ?Select_closed, ?Where_closed, ?WhereWithPlaceholder_closed;
      first [exact IH | apply Hstored].
Qed.

(** X5. The three list members only grow: after any sequence of fluent
    calls the fields, where-conditions and joins that were stored are still
    there, unchanged and in front. *)
Theorem accumulators_only_grow (calls : list Call) (b : SQLQueryBuilder) :
  selectFields b `prefix_of` selectFields (run_calls calls b) ∧
  whereConditions b `prefix_of` whereConditions (run_calls calls b) ∧
  joins b `prefix_of` joins (run_calls calls b).
Proof.
  induction calls as [|c calls (IHs & IHw & IHj)] using rev_ind; [done|].
  rewrite run_calls_snoc.
  destruct c; cbn [call_body];
    rewrite ?Select_closed, ?Where_closed, ?WhereWithPlaceholder_closed;
    cbn; split_and!; try done; by apply prefix_app_r.
Qed.

(** ** How calls compose *)

(** X6. Two fluent calls that write different data members commute: the
    builder they leave, hence the text [Build] returns, does not depend on
    which came first. *)
Theorem calls_commute iter (c1 c2 : Call) (b : SQLQueryBuilder) :
  accumulator c1 ≠ accumulator c2 →
  call_body c1 (call_body c2 b) = call_body c2 (call_body c1 b) ∧
  Build iter (call_body c1 (call_body c2 b))
  = Build iter (call_body c2 (call_body c1 b)).
Proof.
  intros Hne.
  assert (H : call_body c1 (call_body c2 b) = call_body c2 (call_body c1 b)).
  { destruct c1, c2; try (by destruct Hne); cbn [call_body];
      rewrite ?Select_closed, ?Where_closed, ?WhereWithPlaceholder_closed;
      reflexivity. }
  by rewrite H.
Qed.

Lemma calls_commute_witness :
  accumulator (CallIndex "ix") ≠ accumulator (CallFrom "t") ∧
  Index "ix" (From "t" (SQLQueryBuilder_new Oracle))
  = From "t" (Index "ix" (SQLQueryBuilder_new Oracle)).
Proof.
  assert (Hne : accumulator (CallIndex "ix") ≠ accumulator (CallFrom "t"))
    by discriminate.
  split; [exact Hne|].
  exact (proj1 (calls_commute map_to_list (CallIndex "ix") (CallFrom "t")
                  (SQLQueryBuilder_new Oracle) Hne)).
Defined.

(** X7. [Select] and [Where] are cumulative: one call with a list does what
    successive calls with its pieces do, and a call with the empty list
    changes nothing. *)
Theorem Select_Where_batches (b : SQLQueryBuilder) (fields fields' : list string)
    (conditions conditions' : list (string * string)) (isDateTime : bool) :
  Select (fields ++ fields') b = Select fields' (Select fields b) ∧
  Select [] b = b ∧
  Where (conditions ++ conditions') isDateTime b
  = Where conditions' isDateTime (Where conditions isDateTime b) ∧
  Where [] isDateTime b = b.
Proof.
  unfold Select, Where. by rewrite !foldl_app.
Qed.

(** X8. [WhereWithPlaceholder] does to the builder exactly what [Where]
    does with [isDateTime = false]: the column is escaped and the second
    component is stored as it is. *)
Theorem WhereWithPlaceholder_is_Where (conditions : list (string * string))
    (b : SQLQueryBuilder) :
  WhereWithPlaceholder conditions b = Where conditions false b.
Proof.
  by rewrite WhereWithPlaceholder_closed, Where_closed.
Qed.

(** ** The placeholder map *)

(** X10. Placeholder values reach the WHERE clause only: after [SetValue]
    every other part of the output (hint, columns, table, joins, ORDER BY,
    pagination) is as before, tokens standing there are not replaced, and
    with no where-condition the output does not change at all. *)
Theorem placeholders_only_in_where iter (b : SQLQueryBuilder) (key value : string) :
  Build iter (SetValue key value b) =
    "SELECT " +:+ hint_text b +:+ fields_text b +:+ " FROM " +:+ tableName b +:+
    force_index_text b +:+ joins_text b +:+
    where_text iter (SetValue key value b) +:+
    orderBy_text b +:+ pagination_text b ∧
  (whereConditions b = [] → Build iter (SetValue key value b) = Build iter b).
Proof.
  split; [by rewrite Build_layout|].
  intros Hw. rewrite !Build_layout. do 6 f_equal.
  unfold where_text, Build_where. cbn [SetValue set_values whereConditions].
  by rewrite Hw.
Qed.

(** ** Pagination edge cases *)

(** X11. While [limit] is negative, [Offset] has no effect on the output in
    either dialect, and the output is the one for [limit = -1]: no
    pagination text. *)
Theorem Offset_needs_Limit iter (b : SQLQueryBuilder) (o : Z) :
  limit b < 0 →
  Build iter (Offset o b) = Build iter b ∧
  Build iter b = Build iter (Limit (-1) b) ∧
  pagination_text (Offset o b) = "".
Proof.
  intros Hn.
  assert (Hp : ∀ b', limit b' < 0 → pagination_text b' = "").
  { intros b' Hb'. unfold pagination_text, Build_pagination.
    destruct (Z.leb_spec 0 (limit b')); [lia|]. by destruct (dbType b'). }
  split_and!; [| |by apply Hp].
  - rewrite !Build_layout, !Hp by (cbn; lia). done.
  - rewrite !Build_layout, !Hp by (cbn; lia). done.
Qed.

Lemma Offset_needs_Limit_witness :
  limit (Limit (-7) (SQLQueryBuilder_new MariaDB)) < 0 ∧
  pagination_text (Offset 5 (Limit (-7) (SQLQueryBuilder_new MariaDB))) = "".
Proof.
  assert (H : limit (Limit (-7) (SQLQueryBuilder_new MariaDB)) < 0) by (cbn; lia).
  split; [exact H|].
  exact (proj2 (proj2 (Offset_needs_Limit map_to_list _ 5 H))).
Defined.

(** ** Escaping twice *)

(** X12. Escaping is idempotent on a reachable builder: a quoted reserved
    word is not itself a reserved word, so escaping an escaped identifier
    again leaves it as it is. *)
Theorem escaping_idempotent (b : SQLQueryBuilder) (field : string) :
  reachable b →
  HandleReservedKeyword b (HandleReservedKeyword b field)
  = HandleReservedKeyword b field.
Proof.
  intros Hb. rewrite !(HandleReservedKeyword_escape b _ Hb).
  unfold escape_identifier at 2. case_bool_decide as Hin.
  - unfold reserved_words in Hin.
    rewrite !elem_of_cons, elem_of_nil in Hin.
    destruct Hin as [->|[->|[->|[->|[->|[]]]]]]; by destruct (dbType b).
  - unfold escape_identifier. by rewrite bool_decide_eq_false_2.
Qed.

Lemma escaping_idempotent_witness :
  reachable (SQLQueryBuilder_new MariaDB) ∧
  HandleReservedKeyword (SQLQueryBuilder_new MariaDB)
    (HandleReservedKeyword (SQLQueryBuilder_new MariaDB) "ORDER")
  = HandleReservedKeyword (SQLQueryBuilder_new MariaDB) "ORDER".
Proof.
  split; [apply reachable_new|].
  exact (escaping_idempotent _ "ORDER" (reachable_new MariaDB)).
Defined.

(** ** The iteration order of the placeholder map *)

Lemma short_Permutation {A} (l l' : list A) :
  l ≡ₚ l' → (length l ≤ 1)%nat → l = l'.
Proof.
  intros Hperm Hlen. destruct l as [|x [|y l]]; simpl in Hlen; [| |lia].
  - by apply Permutation_nil_l in Hperm.
  - by apply Permutation_singleton_l in Hperm.
Qed.

(** X13. The output does not depend on the iteration order of the
    placeholder map when there is no where-condition, when the map has at
    most one entry, or when none of its keys occurs in the joined
    where-clause. *)
Theorem Build_order_independent iter iter' (b : SQLQueryBuilder) :
  (∀ m, iter m ≡ₚ map_to_list m) →
  (∀ m, iter' m ≡ₚ map_to_list m) →
  whereConditions b = [] ∨ (size (values b) ≤ 1)%nat ∨
  (∀ key, is_Some (values b !! key) →
          ¬ occurs key (Join (whereConditions b) " AND ")) →
  Build iter b = Build iter' b.
Proof.
  intros Hperm Hperm' Hcases. rewrite !Build_layout. do 6 f_equal.
  unfold where_text, Build_where.
  destruct Hcases as [Hw|[Hsize|Hno]].
  - by rewrite Hw.
  - assert (iter (values b) = iter' (values b)) as ->; [|done].
    apply short_Permutation; [by rewrite Hperm, Hperm'|].
    by rewrite Hperm, length_map_to_list.
  - destruct (negb _); [|done]. stream_unfold. do 2 f_equal.
    rewrite !loop_no_occurrence; [done| |];
      intros key value Hin; apply Hno; exists value.
    + by apply (iter_elem_of iter' Hperm').
    + by apply (iter_elem_of iter Hperm).
Qed.

Lemma Build_order_independent_witness :
  (∀ m : gmap string string, map_to_list m ≡ₚ map_to_list m) ∧
  (∀ m : gmap string string, reverse (map_to_list m) ≡ₚ map_to_list m) ∧
  Build map_to_list (SQLQueryBuilder_new Oracle)
  = Build (λ m, reverse (map_to_list m)) (SQLQueryBuilder_new Oracle).
Proof.
  assert (H1 : ∀ m : gmap string string, map_to_list m ≡ₚ map_to_list m)
    by (intros m; reflexivity).
  assert (H2 : ∀ m : gmap string string, reverse (map_to_list m) ≡ₚ map_to_list m)
    by (intros m; apply reverse_Permutation).
  split; [exact H1|]. split; [exact H2|].
  apply (Build_order_independent map_to_list (λ m, reverse (map_to_list m))
           (SQLQueryBuilder_new Oracle) H1 H2).
  left. reflexivity.
Defined.

(** X14. In general the output does depend on that order: there is a
    builder (two keys, [a] and [ab], over the clause [c = ab]) and two
    iteration orders of its map for which [Build] returns different
    texts. *)
Theorem Build_order_dependent :
  ∃ (b : SQLQueryBuilder) (iter iter' : gmap string string → list (string * string)),
    (∀ m, iter m ≡ₚ map_to_list m) ∧
    (∀ m, iter' m ≡ₚ map_to_list m) ∧
    Build iter b = "SELECT * FROM  WHERE c = Y" ∧
    Build iter' b = "SELECT * FROM  WHERE c = Xb".
Proof.
  exists overlapping_placeholders, map_to_list, (λ m, reverse (map_to_list m)).
  split_and!.
  - done.
  - intros m. apply reverse_Permutation.
  - vm_compute. reflexivity.
  - vm_compute. reflexivity.
Qed.

(** ** Clearing the index hint *)

(** X16. [Index] replaces the earlier hint, and [Index] with the empty
    string removes it: the output then has neither the Oracle comment nor
    the MariaDB FORCE INDEX clause, in either dialect. *)
Theorem Index_empty_clears iter (b : SQLQueryBuilder) (indexName indexName' : string) :
  Index indexName' (Index indexName b) = Index indexName' b ∧
  Build iter (Index "" b) =
    "SELECT " +:+ fields_text b +:+ " FROM " +:+ tableName b +:+
    joins_text b +:+ where_text iter b +:+ orderBy_text b +:+ pagination_text b.
Proof.
  split; [done|].
  rewrite Build_layout.
  assert (hint_text (Index "" b) = "") as ->.
  { unfold hint_text, Build_hint. cbn. by rewrite andb_false_r. }
  assert (force_index_text (Index "" b) = "") as ->.
  { unfold force_index_text, Build_force_index. cbn. by rewrite andb_false_r. }
  done.
Qed.

(** ** Conditions are conjoined *)

(** X17. With no placeholder value stored, adding conditions to a builder
    that already has some extends its WHERE clause by [" AND "] and the new
    conditions joined by [" AND "]; the text that was there stays in
    front. *)
Theorem Where_conjoins iter (b : SQLQueryBuilder)
    (conditions : list (string * string)) (isDateTime : bool) :
  (∀ m, iter m ≡ₚ map_to_list m) →
  values b = ∅ → whereConditions b ≠ [] → conditions ≠ [] →
  where_text iter (Where conditions isDateTime b)
  = where_text iter b +:+ " AND " +:+
    String.concat " AND " (where_fragment b isDateTime <$> conditions).
Proof.
  intros Hperm Hvalues Hw Hc.
  assert (Hiter : iter ∅ = []).
  { apply Permutation_nil_r. by rewrite Hperm, map_to_list_empty. }
  rewrite Where_closed. unfold where_text, Build_where.
  cbn [set_whereConditions whereConditions values]. rewrite Hvalues, Hiter.
  destruct (whereConditions b) as [|w ws]; [done|].
  destruct conditions as [|c cs]; [done|].
  cbn [fmap list_fmap app empty_vector negb foldl]. stream_unfold.
  rewrite !Join_concat.
  change (String.concat " AND " (w :: ws ++ _))
    with (String.concat " AND "
            (w :: (ws ++ where_fragment b isDateTime c
                           :: (where_fragment b isDateTime <$> cs)))).
  rewrite !concat_delimited, delimited_app.
  cbn [delimited foldr].
  fold (delimited " AND " (where_fragment b isDateTime <$> cs)).
  by rewrite !string_app_assoc.
Qed.

Lemma Where_conjoins_witness :
  (∀ m : gmap string string, map_to_list m ≡ₚ map_to_list m) ∧
  values (Where [("a", "1")] false (SQLQueryBuilder_new MariaDB)) = ∅ ∧
  whereConditions (Where [("a", "1")] false (SQLQueryBuilder_new MariaDB)) ≠ [] ∧
  [("USER", "2")] ≠ ([] : list (string * string)) ∧
  where_text map_to_list
    (Where [("USER", "2")] false
       (Where [("a", "1")] false (SQLQueryBuilder_new MariaDB)))
  = where_text map_to_list (Where [("a", "1")] false (SQLQueryBuilder_new MariaDB))
    +:+ " AND " +:+
    String.concat " AND "
      (where_fragment (Where [("a", "1")] false (SQLQueryBuilder_new MariaDB)) false
         <$> [("USER", "2")]).
Proof.
  assert (H1 : ∀ m : gmap string string, map_to_list m ≡ₚ map_to_list m)
    by (intros m; reflexivity).
  assert (H2 : values (Where [("a", "1")] false (SQLQueryBuilder_new MariaDB)) = ∅)
    by reflexivity.
  assert (H3 : whereConditions (Where [("a", "1")] false (SQLQueryBuilder_new MariaDB))
               ≠ []) by (vm_compute; discriminate).
  assert (H4 : [("USER", "2")] ≠ ([] : list (string * string))) by discriminate.
  split; [exact H1|]. split; [exact H2|]. split; [exact H3|]. split; [exact H4|].
  exact (Where_conjoins map_to_list _ [("USER", "2")] false H1 H2 H3 H4).
Defined.

(** ** The replacement stays in range *)

(** X18. In the loop of [Build] the position [find] returns leaves room for
    the whole key inside the clause, so [replace] is never called out of
    range; one pass of the loop changes the length of the clause by the
    length of the value minus the length of the key when the key is found,
    and leaves the clause as it is when it is not. *)
Theorem substitute_in_range (whereClause key value : string) :
  match find whereClause key with
  | Some pos =>
      (pos + String.length key ≤ String.length whereClause)%nat ∧
      (String.length (substitute whereClause (key, value)) + String.length key
       = String.length whereClause + String.length value)%nat
  | None => substitute whereClause (key, value) = whereClause
  end.
Proof.
  unfold substitute. cbn [fst snd].
  pose proof (find_spec whereClause key) as Hfind.
  destruct (find whereClause key) as [pos|]; [|done].
  destruct Hfind as (before & after & [-> _] & <-).
  rewrite replace_occurrence, !string_length_app. lia.
Qed.
